(** * Mergington High School activities API: signup validation

    A shallow embedding of [src/src_app.py].  The module-level dictionary
    [activities] is the only mutable state of the program; the handlers are
    modelled as computations that thread this registry explicitly and either
    return a value or raise an [HTTPException].

    Modelling choices, all taken from the source:
    - the registry [Dict[str, Dict]] is a [gmap string ActivityRecord];
      each inner dictionary always carries the same four keys, so it is a
      record;
    - Python [int] is [Z]; [len] of a list is [Z.of_nat (length _)];
    - Python [str] is [string], read as the UTF-8 bytes of the text: string
      equality, list membership and [endswith] with an ASCII suffix are the
      same on the bytes as on the characters;
    - [str.lower] is a builtin of Python, not code of this program, and it
      lower-cases all of Unicode.  It is the parameter [lower] of the
      section [Service].  What is assumed of it is stated once, as the three
      hypotheses [lower_idemp], [lower_suffix] and [lower_on_ascii], and a
      theorem depends on a hypothesis only when its proof needs it;
    - a raised exception keeps the registry as it is at the [raise]:
      nothing is rolled back, so the state after a failure is part of the
      model and not assumed to be the initial one;
    - [with _db_lock] serialises handlers; the model is sequential;
    - a handler starts from a [SignupRequest] the framework has already
      built: the answers FastAPI gives to a malformed body are outside the
      model. *)

From Stdlib Require Import ZArith String Ascii.
From stdpp Require Import gmap strings list fin_maps.

Local Open Scope Z_scope.

(** ** Strings *)

Module Str.

Definition is_upper (c : ascii) : bool :=
  let n := nat_of_ascii c in ((65 <=? n) && (n <=? 90))%nat.

(** Lower-casing of the 26 ASCII capitals; every other byte is kept.  This
    is not the program's [str.lower]: it is the yardstick for what is
    assumed of it, and the simplest function that meets the assumptions. *)
Definition ascii_lower_char (c : ascii) : ascii :=
  if is_upper c then ascii_of_nat (nat_of_ascii c + 32) else c.

Fixpoint ascii_lower (s : string) : string :=
  match s with
  | EmptyString => EmptyString
  | String c s' => String (ascii_lower_char c) (ascii_lower s')
  end.

(** [s.isascii()]: every byte is below 128. *)
Fixpoint is_ascii (s : string) : bool :=
  match s with
  | EmptyString => true
  | String c s' => (nat_of_ascii c <? 128)%nat && is_ascii s'
  end.

Fixpoint take_chars (n : nat) (s : string) : string :=
  match n, s with
  | O, _ => EmptyString
  | S _, EmptyString => EmptyString
  | S n', String c s' => String c (take_chars n' s')
  end.

Fixpoint drop_chars (n : nat) (s : string) : string :=
  match n, s with
  | O, _ => s
  | S _, EmptyString => EmptyString
  | S n', String _ s' => drop_chars n' s'
  end.

(** [s.endswith(suffix)]: the last [len(suffix)] characters of [s] are
    compared with [suffix]. *)
Definition endswith (s suffix : string) : bool :=
  let n := String.length s in
  let m := String.length suffix in
  (m <=? n)%nat && String.eqb (drop_chars (n - m) s) suffix.

(** [s] ends with [suffix] when the case of the ASCII letters is ignored:
    some tail of [s] has the same ASCII-lower-cased form as [suffix]. *)
Definition ends_with_nocase (s suffix : string) : Prop :=
  ∃ front tail, s = front +:+ tail ∧ ascii_lower tail = ascii_lower suffix.

(** The second byte of the UTF-8 form of a Latin-1 capital (U+00C0 to
    U+00DE without the multiplication sign U+00D7); the first byte is 195. *)
Definition is_latin1_capital_tail (d : ascii) : bool :=
  let n := nat_of_ascii d in
  ((128 <=? n) && (n <=? 158) && negb (n =? 151))%nat.

Definition is_latin1_lead (c : ascii) : bool :=
  (nat_of_ascii c =? 195)%nat.

(** A lower-casing that knows the ASCII and the Latin-1 capitals: a second
    function that meets what is assumed of [str.lower], used to run the
    theorems on addresses that are not ASCII. *)
Fixpoint latin1_lower (s : string) : string :=
  match s with
  | EmptyString => EmptyString
  | String c s' =>
      match s' with
      | String d s'' =>
          if is_latin1_lead c && is_latin1_capital_tail d then
            String c (String (ascii_of_nat (nat_of_ascii d + 32))
                        (latin1_lower s''))
          else String (ascii_lower_char c) (latin1_lower s')
      | EmptyString => String (ascii_lower_char c) EmptyString
      end
  end.

(** Two strings of the same length that agree wherever either has an
    ASCII byte. *)
Inductive same_ascii : string → string → Prop :=
| same_ascii_nil : same_ascii EmptyString EmptyString
| same_ascii_eq c s t :
    same_ascii s t → same_ascii (String c s) (String c t)
| same_ascii_high c d s t :
    (128 <=? nat_of_ascii c)%nat = true →
    (128 <=? nat_of_ascii d)%nat = true →
    same_ascii s t → same_ascii (String c s) (String d t).

End Str.

(** ** Data model *)

(** One entry of [activities]. *)
Record ActivityRecord := mkActivity {
  description : string;
  schedule : string;
  max_participants : Z;
  participants : list string
}.

#[global] Instance ActivityRecord_eq_dec : EqDecision ActivityRecord.
Proof. solve_decision. Defined.

Abbreviation registry := (gmap string ActivityRecord).

(** [class SignupRequest(BaseModel): email: EmailStr] *)
Record SignupRequest := mkSignupRequest { email : string }.

(** [fastapi.HTTPException(status_code=..., detail=...)] *)
Record HTTPException := mkHTTPException {
  status_code : Z;
  detail : string
}.

Definition HTTP_200_OK : Z := 200.
Definition HTTP_201_CREATED : Z := 201.
Definition HTTP_400_BAD_REQUEST : Z := 400.
Definition HTTP_403_FORBIDDEN : Z := 403.
Definition HTTP_404_NOT_FOUND : Z := 404.
Definition HTTP_409_CONFLICT : Z := 409.

(** The seed entry for ["Chess Club"]. *)
Definition chess_club : ActivityRecord :=
  mkActivity
    "Learn strategies and compete in chess tournaments"
    "Fridays, 3:30 PM - 5:00 PM"
    12
    ["michael@mergington.edu"; "daniel@mergington.edu"].

(** The in-memory activity database at process start. *)
Definition activities : registry :=
  <[ "Chess Club" := chess_club ]>
  (<[ "Programming Class" := mkActivity
       "Learn programming fundamentals and build software projects"
       "Tuesdays and Thursdays, 3:30 PM - 4:30 PM"
       20
       ["emma@mergington.edu"; "sophia@mergington.edu"] ]>
  (<[ "Gym Class" := mkActivity
       "Physical education and sports activities"
       "Mondays, Wednesdays, Fridays, 2:00 PM - 3:00 PM"
       30
       ["john@mergington.edu"; "olivia@mergington.edu"] ]>
  (<[ "Basketball Team" := mkActivity
       "Join the competitive basketball team and compete in regional tournaments"
       "Mondays and Thursdays, 4:00 PM - 5:30 PM"
       15
       ["james@mergington.edu"] ]>
  (<[ "Tennis Club" := mkActivity
       "Learn tennis skills and participate in friendly matches"
       "Wednesdays and Saturdays, 3:00 PM - 4:30 PM"
       12
       ["lucas@mergington.edu"; "sophia@mergington.edu"] ]>
  (<[ "Drama Club" := mkActivity
       "Perform in school plays and theatrical productions"
       "Tuesdays and Fridays, 4:00 PM - 5:30 PM"
       25
       ["isabella@mergington.edu"; "alexander@mergington.edu"] ]>
  (<[ "Art Studio" := mkActivity
       "Explore various art techniques including painting, drawing, and sculpture"
       "Mondays and Wednesdays, 3:30 PM - 5:00 PM"
       18
       ["ava@mergington.edu"] ]>
  (<[ "Robotics Club" := mkActivity
       "Build and program robots to compete in robotics competitions"
       "Thursdays and Saturdays, 3:00 PM - 5:00 PM"
       16
       ["noah@mergington.edu"; "liam@mergington.edu"] ]>
  (<[ "Science Club" := mkActivity
       "Conduct experiments and explore scientific concepts through hands-on activities"
       "Wednesdays, 3:30 PM - 5:00 PM"
       20
       ["charlotte@mergington.edu"] ]>
  ∅)))))))).

(** ** Handlers: registry-passing computations that may raise *)

Inductive outcome (A : Type) : Type :=
| Returned (a : A)
| Raised (e : HTTPException).
Arguments Returned {A} a.
Arguments Raised {A} e.

Definition handler (A : Type) : Type := registry → outcome A * registry.

Definition raise {A} (e : HTTPException) : handler A := λ r, (Raised e, r).

#[global] Instance handler_ret : MRet handler :=
  λ A (a : A) r, (Returned a, r).

#[global] Instance handler_bind : MBind handler :=
  λ A B (k : A → handler B) (c : handler A) r,
    match c r with
    | (Returned a, r') => k a r'
    | (Raised e, r') => (Raised e, r')
    end.

(** [activities.get(name)] *)
Definition activities_get (name : string) : handler (option ActivityRecord) :=
  λ r, (Returned (r !! name), r).

(** The record stored under [name] after a successful signup. *)
Definition with_participant (a : ActivityRecord) (e : string) : ActivityRecord :=
  mkActivity (description a) (schedule a) (max_participants a)
    (participants a ++ [e]).

(** [activity["participants"].append(email)], where [activity] is the
    dictionary stored under [name]: the list inside the stored record grows
    in place, every other entry of the registry is the same object as
    before. *)
Definition participants_append (name : string) (activity : ActivityRecord)
    (e : string) : handler unit :=
  λ r, (Returned tt, <[ name := with_participant activity e ]> r).

(** [GET /activities] *)
Definition get_activities : handler registry :=
  λ r, (Returned r, r).

(** [GET /activities/{activity_name}].  [if not activity] is the test for
    [None]: a stored record is a non-empty dictionary, hence truthy. *)
Definition get_activity (activity_name : string) : handler ActivityRecord :=
  activity ← activities_get activity_name ;
  match activity with
  | None => raise (mkHTTPException HTTP_404_NOT_FOUND "Activity not found")
  | Some activity => mret activity
  end.

(** [check_already_signed_up] *)
Definition check_already_signed_up (activity_name : string) (email : string)
    : handler bool :=
  activity ← activities_get activity_name ;
  match activity with
  | None => mret false
  | Some activity => mret (bool_decide (email ∈ participants activity))
  end.

(** The status code the framework answers with: the route's success code
    when the handler returns, the exception's code when it raises. *)
Definition response_status {A} (success : Z) (o : outcome A) : Z :=
  match o with
  | Returned _ => success
  | Raised e => status_code e
  end.

Definition get_activity_status (r : registry) (name : string) : Z :=
  response_status HTTP_200_OK (get_activity name r).1.

Inductive request : Type :=
| GetActivities
| GetActivity (activity_name : string)
| PostSignup (activity_name : string) (payload : SignupRequest).

(** Capacity and uniqueness of one record. *)
Definition record_ok (a : ActivityRecord) : Prop :=
  Z.of_nat (length (participants a)) ≤ max_participants a
  ∧ NoDup (participants a).

Definition registry_invariant (r : registry) : Prop :=
  map_Forall (λ _ a, record_ok a) r.

#[global] Instance record_ok_dec a : Decision (record_ok a).
Proof. unfold record_ok. apply _. Defined.

(** [a'] is [a] with participants added at the end and nothing else
    changed. *)
Definition record_extends (a a' : ActivityRecord) : Prop :=
  description a' = description a
  ∧ schedule a' = schedule a
  ∧ max_participants a' = max_participants a
  ∧ participants a `prefix_of` participants a'.

(** An ASCII email in the form the signup stores. *)
Definition ascii_stored_form (p : string) : Prop :=
  Str.is_ascii p = true
  ∧ Str.ascii_lower p = p
  ∧ Str.endswith p "@mergington.edu" = true.

#[global] Instance ascii_stored_form_dec p : Decision (ascii_stored_form p).
Proof. unfold ascii_stored_form. apply _. Defined.

Inductive check : Type :=
| ActivityExists
| EmailDomain
| NotAlreadySignedUp
| NotFull.

Definition check_status (c : check) : Z :=
  match c with
  | ActivityExists => HTTP_404_NOT_FOUND
  | EmailDomain => HTTP_400_BAD_REQUEST
  | NotAlreadySignedUp => HTTP_409_CONFLICT
  | NotFull => HTTP_403_FORBIDDEN
  end.

(** The order written in the specification. *)
Definition spec_order : list check :=
  [ActivityExists; EmailDomain; NotAlreadySignedUp; NotFull].

(** The order of the tests in [signup_for_activity]. *)
Definition code_order : list check :=
  [EmailDomain; ActivityExists; NotAlreadySignedUp; NotFull].

(** Requests for ["Chess Club"] by ten more students. *)
Definition ten_more_for_chess : list (string * string) :=
  [("Chess Club", "s01@mergington.edu");
   ("Chess Club", "s02@mergington.edu");
   ("Chess Club", "s03@mergington.edu");
   ("Chess Club", "s04@mergington.edu");
   ("Chess Club", "s05@mergington.edu");
   ("Chess Club", "s06@mergington.edu");
   ("Chess Club", "s07@mergington.edu");
   ("Chess Club", "s08@mergington.edu");
   ("Chess Club", "s09@mergington.edu");
   ("Chess Club", "s10@mergington.edu")].

Section Service.

(** [str.lower] *)
Variable lower : string → string.

(** [validate_student] *)
Definition validate_student (email : string) : bool :=
  Str.endswith (lower email) "@mergington.edu".

(** [POST /activities/{activity_name}/signup] *)
Definition signup_for_activity (activity_name : string)
    (payload : SignupRequest) : handler string :=
  let email := lower (email payload) in
  if negb (validate_student email) then
    raise (mkHTTPException HTTP_400_BAD_REQUEST
             "Email must be a @mergington.edu address")
  else
    activity ← activities_get activity_name ;
    match activity with
    | None => raise (mkHTTPException HTTP_404_NOT_FOUND "Activity not found")
    | Some activity =>
        if bool_decide (email ∈ participants activity) then
          raise (mkHTTPException HTTP_409_CONFLICT
                   "Student already signed up for this activity")
        else if Z.of_nat (length (participants activity))
                  >=? max_participants activity then
          raise (mkHTTPException HTTP_403_FORBIDDEN "Activity is full")
        else
          participants_append activity_name activity email ;;
          mret ("Signed up " +:+ email +:+ " for " +:+ activity_name)
    end.

(** Status and final registry of a signup request. *)
Definition signup_status (r : registry) (name mail : string) : Z :=
  response_status HTTP_201_CREATED
    (signup_for_activity name (mkSignupRequest mail) r).1.

Definition signup_registry (r : registry) (name mail : string) : registry :=
  (signup_for_activity name (mkSignupRequest mail) r).2.

(** ** The service as a transition system *)

(** The registry after a request has been served. *)
Definition serve (req : request) (r : registry) : registry :=
  match req with
  | GetActivities => (get_activities r).2
  | GetActivity name => (get_activity name r).2
  | PostSignup name payload => (signup_for_activity name payload r).2
  end.

(** The registries the process can be in: the seed data, then any number of
    served requests. *)
Inductive reachable : registry → Prop :=
| reachable_seed : reachable activities
| reachable_serve req r : reachable r → reachable (serve req r).

(** [replay reqs r]: serve the signups [reqs] (name, email), oldest first. *)
Definition replay (reqs : list (string * string)) (r : registry) : registry :=
  foldl (λ acc q, signup_registry acc q.1 q.2) r reqs.

(** The registry after the requests [reqs] have been served, oldest
    first. *)
Definition run_requests (reqs : list request) (r : registry) : registry :=
  foldl (λ acc q, serve q acc) r reqs.

(** Every stored participant is in the form [signup_for_activity] stores:
    lower-cased and accepted by [validate_student]. *)
Definition stored_form (p : string) : Prop :=
  lower p = p ∧ validate_student p = true.

Definition participants_stored_form (r : registry) : Prop :=
  map_Forall (λ _ a, Forall stored_form (participants a)) r.

(** The four ways a signup can end, read off the handler's control flow. *)
Inductive signup_run (r : registry) (name mail : string)
    : outcome string * registry → Prop :=
| run_bad_request :
    validate_student (lower mail) = false →
    signup_run r name mail
      (Raised (mkHTTPException HTTP_400_BAD_REQUEST
                 "Email must be a @mergington.edu address"), r)
| run_not_found :
    validate_student (lower mail) = true →
    r !! name = None →
    signup_run r name mail
      (Raised (mkHTTPException HTTP_404_NOT_FOUND "Activity not found"), r)
| run_conflict a :
    validate_student (lower mail) = true →
    r !! name = Some a →
    lower mail ∈ participants a →
    signup_run r name mail
      (Raised (mkHTTPException HTTP_409_CONFLICT
                 "Student already signed up for this activity"), r)
| run_forbidden a :
    validate_student (lower mail) = true →
    r !! name = Some a →
    lower mail ∉ participants a →
    max_participants a ≤ Z.of_nat (length (participants a)) →
    signup_run r name mail
      (Raised (mkHTTPException HTTP_403_FORBIDDEN "Activity is full"), r)
| run_created a :
    validate_student (lower mail) = true →
    r !! name = Some a →
    lower mail ∉ participants a →
    Z.of_nat (length (participants a)) < max_participants a →
    signup_run r name mail
      (Returned ("Signed up " +:+ lower mail +:+ " for " +:+ name),
       <[ name := with_participant a (lower mail) ]> r).

(** ** Validation order *)

(** Whether a check rejects the request.  The two checks that read the
    record reject nothing when there is no record. *)
Definition rejects (r : registry) (name mail : string) (c : check) : bool :=
  match c with
  | ActivityExists => bool_decide (r !! name = None)
  | EmailDomain => negb (validate_student mail)
  | NotAlreadySignedUp =>
      match r !! name with
      | Some a => bool_decide (lower mail ∈ participants a)
      | None => false
      end
  | NotFull =>
      match r !! name with
      | Some a => Z.of_nat (length (participants a)) >=? max_participants a
      | None => false
      end
  end.

(** The status when the checks are tried in the given order and the first
    one that rejects decides. *)
Definition status_in_order (order : list check) (r : registry)
    (name mail : string) : Z :=
  match find (rejects r name mail) order with
  | Some c => check_status c
  | None => HTTP_201_CREATED
  end.

(** The seed registry after ten more students joined ["Chess Club"], which
    is then full (12 of 12). *)
Definition chess_club_full : registry :=
  replay ten_more_for_chess activities.

(** ** String lemmas *)

Lemma ascii_lower_char_idemp c :
  Str.ascii_lower_char (Str.ascii_lower_char c) = Str.ascii_lower_char c.
Proof. by destruct c as [[] [] [] [] [] [] [] []]. Qed.

Lemma ascii_lower_idemp s : Str.ascii_lower (Str.ascii_lower s) = Str.ascii_lower s.
Proof.
  induction s as [|c s IH]; simpl; [done|].
  by rewrite ascii_lower_char_idemp, IH.
Qed.

Lemma str_app_cons c s t : String c s +:+ t = String c (s +:+ t).
Proof. reflexivity. Qed.

Lemma ascii_lower_app s t :
  Str.ascii_lower (s +:+ t) = Str.ascii_lower s +:+ Str.ascii_lower t.
Proof.
  induction s as [|c s IH]; [done|].
  rewrite str_app_cons. simpl. by rewrite str_app_cons, IH.
Qed.


Lemma str_length_app s t :
  String.length (s +:+ t) = (String.length s + String.length t)%nat.
Proof.
  induction s as [|c s IH]; [done|].
  rewrite str_app_cons. simpl. by rewrite IH.
Qed.

Lemma take_drop_chars n s : Str.take_chars n s +:+ Str.drop_chars n s = s.
Proof.
  revert s; induction n as [|n IH]; intros [|c s]; simpl; try done.
  by rewrite str_app_cons, IH.
Qed.

Lemma drop_chars_app s t : Str.drop_chars (String.length s) (s +:+ t) = t.
Proof.
  induction s as [|c s IH]; [by destruct t|].
  rewrite str_app_cons. simpl. apply IH.
Qed.

Lemma ascii_lower_drop_chars n s :
  Str.ascii_lower (Str.drop_chars n s) = Str.drop_chars n (Str.ascii_lower s).
Proof. revert s; induction n as [|n IH]; intros [|c s]; simpl; auto. Qed.

(** [endswith] decides "is a suffix of". *)
Lemma endswith_spec s suffix :
  Str.endswith s suffix = true ↔ ∃ front, s = front +:+ suffix.
Proof.
  unfold Str.endswith. rewrite andb_true_iff, Nat.leb_le, String.eqb_eq. split.
  - intros [_ Hd].
    remember (String.length s - String.length suffix)%nat as k.
    exists (Str.take_chars k s). rewrite <- Hd. by rewrite take_drop_chars.
  - intros [front ->]. rewrite str_length_app. split; [lia|].
    replace (String.length front + String.length suffix
             - String.length suffix)%nat
      with (String.length front) by lia.
    apply drop_chars_app.
Qed.

(** ASCII-lower-casing first and then testing the suffix is the suffix
    test that ignores the case of the ASCII letters. *)
Lemma endswith_ascii_lower_nocase s suffix :
  Str.ascii_lower suffix = suffix →
  Str.endswith (Str.ascii_lower s) suffix = true ↔ Str.ends_with_nocase s suffix.
Proof.
  intros Hsuf. rewrite endswith_spec. unfold Str.ends_with_nocase. split.
  - intros [front Hs].
    exists (Str.take_chars (String.length front) s),
           (Str.drop_chars (String.length front) s).
    split; [by rewrite take_drop_chars|].
    by rewrite ascii_lower_drop_chars, Hs, drop_chars_app.
  - intros (front & tail & -> & Ht).
    exists (Str.ascii_lower front). by rewrite ascii_lower_app, Ht, Hsuf.
Qed.

Lemma is_ascii_ascii_lower s :
  Str.is_ascii s = true → Str.is_ascii (Str.ascii_lower s) = true.
Proof.
  induction s as [|c s IH]; simpl; [done|].
  rewrite !andb_true_iff. intros [Hc Hs]. split; [|by apply IH].
  revert Hc. by destruct c as [[] [] [] [] [] [] [] []].
Qed.

(** ** Running a signup *)

(** [signup_run] covers every run of the handler. *)
Lemma signup_for_activity_run r name mail :
  signup_run r name mail (signup_for_activity name (mkSignupRequest mail) r).
Proof.
  unfold signup_for_activity, mbind, handler_bind, activities_get; simpl.
  destruct (validate_student (lower mail)) eqn:Hv; simpl;
    [|by apply run_bad_request].
  destruct (r !! name) as [a|] eqn:Hr; [|by apply run_not_found].
  case_bool_decide as Hin; [by eapply run_conflict|].
  destruct (Z.geb_spec (Z.of_nat (length (participants a)))
              (max_participants a)) as [Hfull|Hroom].
  - by eapply run_forbidden.
  - by apply run_created.
Qed.

Ltac signup_inv r name mail :=
  unfold signup_status, signup_registry;
  let H := fresh "Hrun" in
  pose proof (signup_for_activity_run r name mail) as H;
  inversion H; subst; clear H;
  repeat match goal with
  | Heq : _ = signup_for_activity _ _ _ |- _ => clear Heq
  end;
  simpl in *.

Ltac signup_absurd := simplify_eq; try done; try congruence; try lia.

Lemma filter_eq_absent (e : string) (l : list string) :
  e ∉ l → filter (λ p, p = e) l = [].
Proof.
  induction l as [|x l IH]; [done|].
  intros [Hne Hl]%not_elem_of_cons.
  rewrite filter_cons_False by congruence. by apply IH.
Qed.

(** A request whose lower-cased email passes the domain test and is
    already stored is answered with 409 and changes nothing. *)
Lemma signup_conflict r name mail a :
  validate_student (lower mail) = true →
  r !! name = Some a →
  lower mail ∈ participants a →
  signup_status r name mail = HTTP_409_CONFLICT
  ∧ signup_registry r name mail = r.
Proof. intros Hv Hr Hin. signup_inv r name mail; signup_absurd. Qed.

(** ** Invariants along the transition system *)

Lemma record_ok_with_participant a e :
  record_ok a →
  e ∉ participants a →
  Z.of_nat (length (participants a)) < max_participants a →
  record_ok (with_participant a e).
Proof.
  intros [Hlen Hnd] Hnew Hroom. split; simpl.
  - rewrite length_app. simpl. lia.
  - apply NoDup_app. split_and!; [done| |apply NoDup_singleton].
    intros x Hx ->%list_elem_of_singleton. done.
Qed.

Lemma registry_invariant_signup r name mail :
  registry_invariant r → registry_invariant (signup_registry r name mail).
Proof.
  intros Hinv. signup_inv r name mail; try done.
  apply map_Forall_insert_2; [|done].
  apply record_ok_with_participant; try done.
  by eapply (Hinv name).
Qed.

Lemma registry_invariant_seed : registry_invariant activities.
Proof. unfold registry_invariant. apply (bool_decide_unpack _). vm_compute. exact I. Qed.

Lemma serve_signup_registry req r :
  serve req r = r
  ∨ ∃ name mail, serve req r = signup_registry r name mail.
Proof.
  destruct req as [|name|name [mail]]; simpl.
  - by left.
  - left. unfold get_activity, mbind, handler_bind, activities_get.
    by destruct (r !! name).
  - right. by exists name, mail.
Qed.

Lemma reachable_invariant r : reachable r → registry_invariant r.
Proof.
  induction 1 as [|req r _ IH]; [apply registry_invariant_seed|].
  destruct (serve_signup_registry req r) as [->|(name & mail & ->)]; [done|].
  by apply registry_invariant_signup.
Qed.

Lemma reachable_replay reqs r : reachable r → reachable (replay reqs r).
Proof.
  revert r; induction reqs as [|[name mail] reqs IH]; intros r Hr; [done|].
  simpl. apply IH. apply (reachable_serve (PostSignup name (mkSignupRequest mail))).
  done.
Qed.

Lemma chess_club_full_reachable : reachable chess_club_full.
Proof. apply reachable_replay, reachable_seed. Qed.

Lemma record_extends_refl a : record_extends a a.
Proof. by split_and!. Qed.

Lemma record_extends_trans a b c :
  record_extends a b → record_extends b c → record_extends a c.
Proof.
  intros (?&?&?&?) (?&?&?&?). split_and!; try congruence. by etrans.
Qed.

Lemma signup_registry_other r name mail other :
  other ≠ name → signup_registry r name mail !! other = r !! other.
Proof.
  intros Hne. signup_inv r name mail; try done. by rewrite lookup_insert_ne.
Qed.

Lemma signup_registry_same r name mail :
  match r !! name with
  | None => signup_registry r name mail !! name = None
  | Some a => ∃ a', signup_registry r name mail !! name = Some a'
                    ∧ record_extends a a'
  end.
Proof.
  signup_inv r name mail;
    repeat match goal with H : r !! name = _ |- _ => rewrite H end;
    try done;
    try (destruct (r !! name) as [a|];
         [exists a; split; [done|apply record_extends_refl]|done]);
    try (by eexists; split; [done|apply record_extends_refl]).
  exists (with_participant a (lower mail)).
  rewrite lookup_insert_eq. split; [done|].
  split_and!; try done. simpl. by apply prefix_app_r.
Qed.

Lemma serve_record req r name :
  match r !! name with
  | None => serve req r !! name = None
  | Some a => ∃ a', serve req r !! name = Some a' ∧ record_extends a a'
  end.
Proof.
  destruct (serve_signup_registry req r) as [->|(n & mail & ->)].
  - destruct (r !! name) as [a|]; [|done].
    exists a. split; [done|apply record_extends_refl].
  - destruct (decide (name = n)) as [->|Hne]; [apply signup_registry_same|].
    rewrite signup_registry_other by done.
    destruct (r !! name) as [a|]; [|done].
    exists a. split; [done|apply record_extends_refl].
Qed.

Lemma reachable_record r name :
  reachable r →
  match activities !! name with
  | None => r !! name = None
  | Some a0 => ∃ a, r !! name = Some a ∧ record_extends a0 a
  end.
Proof.
  induction 1 as [|req r _ IH].
  - destruct (activities !! name) as [a0|]; [|done].
    exists a0. split; [done|apply record_extends_refl].
  - pose proof (serve_record req r name) as Hstep.
    destruct (activities !! name) as [a0|].
    + destruct IH as (a & Ha & Hext). rewrite Ha in Hstep.
      destruct Hstep as (a' & Ha' & Hext'). exists a'. split; [done|].
      by eapply record_extends_trans.
    + by rewrite IH in Hstep.
Qed.

(** The outcome of a signup and the record it writes depend on the
    registry only through the entry stored under the requested name. *)
Lemma signup_local r r' name mail :
  r !! name = r' !! name →
  (signup_for_activity name (mkSignupRequest mail) r).1
  = (signup_for_activity name (mkSignupRequest mail) r').1
  ∧ ((signup_registry r name mail = r ∧ signup_registry r' name mail = r')
     ∨ ∃ x, signup_registry r name mail = <[name:=x]> r
            ∧ signup_registry r' name mail = <[name:=x]> r').
Proof.
  intros Heq.
  unfold signup_registry, signup_for_activity, mbind, handler_bind,
    activities_get, participants_append; simpl.
  destruct (validate_student (lower mail)); simpl; [|by split; [|left]].
  rewrite <- Heq. destruct (r !! name) as [a|]; [|by split; [|left]].
  case_bool_decide; [by split; [|left]|].
  destruct (Z.of_nat (length (participants a)) >=? max_participants a);
    [by split; [|left]|].
  split; [done|]. right. by eexists.
Qed.

(** * Properties that hold whatever [lower] computes *)

(** C3: the registry invariant (in every record the participants list is
    no longer than [max_participants] and has no duplicate) holds of the
    seed data and is preserved by every signup, whether it succeeds or
    fails. *)
Theorem registry_invariant_seed_preserved :
  registry_invariant activities
  ∧ ∀ r name mail,
      registry_invariant r → registry_invariant (signup_registry r name mail).
Proof.
  split; [apply registry_invariant_seed|].
  intros r name mail. apply registry_invariant_signup.
Qed.

(** C7: a signup for [name] touches at most the participants list stored
    under [name].  Every other entry of the registry is unchanged; an absent
    [name] stays absent; and the record under [name] keeps its description,
    schedule and [max_participants], its participants list being either
    unchanged or extended by the lower-cased email. *)
Theorem signup_frame r name mail :
  (∀ other, other ≠ name → signup_registry r name mail !! other = r !! other)
  ∧ (r !! name = None → signup_registry r name mail !! name = None)
  ∧ (∀ a, r !! name = Some a →
       ∃ a', signup_registry r name mail !! name = Some a'
             ∧ description a' = description a
             ∧ schedule a' = schedule a
             ∧ max_participants a' = max_participants a
             ∧ (participants a' = participants a
                ∨ participants a' = participants a ++ [lower mail])).
Proof.
  split_and!.
  - intros other Hne. signup_inv r name mail; try done.
    by rewrite lookup_insert_ne.
  - intros Hnone. signup_inv r name mail; signup_absurd.
  - intros a Hr. signup_inv r name mail; simplify_eq;
      lazymatch goal with
      | |- context [with_participant] =>
          exists (with_participant a (lower mail));
          rewrite lookup_insert_eq; split_and!; try done; by right
      | |- _ => exists a; split_and!; try done; by left
      end.
Qed.

(** C8: [GET /activities/{name}] returns the record stored under [name]
    when there is one, raises 404 when there is none, and in both cases
    leaves the registry as it was. *)
Theorem get_activity_record_or_404 r name :
  (get_activity name r).2 = r
  ∧ (∀ a, r !! name = Some a →
       (get_activity name r).1 = Returned a
       ∧ get_activity_status r name = HTTP_200_OK)
  ∧ (r !! name = None →
       (∃ e, (get_activity name r).1 = Raised e)
       ∧ get_activity_status r name = HTTP_404_NOT_FOUND).
Proof.
  unfold get_activity_status, get_activity, mbind, handler_bind,
    activities_get; simpl.
  split_and!.
  - by destruct (r !! name).
  - by intros a ->.
  - intros ->. split; [by eexists|done].
Qed.

(** X3: [check_already_signed_up] never raises and never changes the
    registry.  It returns [True] exactly when the activity exists and its
    list holds the email as given (no lower-casing here); for an unknown
    activity it returns [False] where [get_activity] raises 404. *)
Theorem check_already_signed_up_result r name mail :
  ∃ b, check_already_signed_up name mail r = (Returned b, r)
       ∧ (b = true ↔ ∃ a, r !! name = Some a ∧ mail ∈ participants a)
       ∧ (r !! name = None →
            b = false
            ∧ get_activity_status r name = HTTP_404_NOT_FOUND).
Proof.
  unfold check_already_signed_up, get_activity_status, get_activity, mbind,
    handler_bind, activities_get; simpl.
  destruct (r !! name) as [a|] eqn:Hr; simpl.
  - exists (bool_decide (mail ∈ participants a)). split_and!; [done| |done].
    rewrite bool_decide_eq_true. split.
    + intros Hin. by exists a.
    + by intros (a' & [= <-] & Hin).
  - exists false. split_and!; [done| |done].
    split; [done|]. by intros (a' & [=] & _).
Qed.

(** X6: the answer of a signup is one of 201, 400, 403, 404, 409, and the
    registry is changed exactly when the answer is 201. *)
Theorem signup_changes_iff_created r name mail :
  signup_status r name mail ∈
    [HTTP_201_CREATED; HTTP_400_BAD_REQUEST; HTTP_403_FORBIDDEN;
     HTTP_404_NOT_FOUND; HTTP_409_CONFLICT]
  ∧ (signup_registry r name mail ≠ r
     ↔ signup_status r name mail = HTTP_201_CREATED).
Proof.
  signup_inv r name mail; (split; [set_solver|]); split; try done.
  intros _ Heq.
  assert (<[name:=with_participant a (lower mail)]> r !! name
          = Some a) as Hl by (by rewrite Heq).
  rewrite lookup_insert_eq in Hl. injection Hl as Hl.
  apply (f_equal (λ x, length (participants x))) in Hl. simpl in Hl.
  rewrite length_app in Hl. simpl in Hl. lia.
Qed.

(** X7: what a successful signup wrote is read back.  Before it,
    [check_already_signed_up] on the lower-cased email returns [False];
    after it, it returns [True], and [get_activity] returns a record whose
    last participant is the lower-cased email. *)
Theorem signup_then_read r name mail :
  signup_status r name mail = HTTP_201_CREATED →
  let r' := signup_registry r name mail in
  (check_already_signed_up name (lower mail) r).1 = Returned false
  ∧ (check_already_signed_up name (lower mail) r').1 = Returned true
  ∧ ∃ a', (get_activity name r').1 = Returned a'
          ∧ last (participants a') = Some (lower mail).
Proof.
  unfold check_already_signed_up, get_activity, mbind, handler_bind,
    activities_get; simpl.
  signup_inv r name mail; intros Hs; try done.
  rewrite lookup_insert_eq.
  match goal with H : r !! name = Some _ |- _ => rewrite H end. simpl.
  split_and!.
  - by rewrite bool_decide_eq_false_2.
  - rewrite bool_decide_eq_true_2; [done|]. set_solver.
  - eexists. split; [done|]. simpl. apply last_snoc.
Qed.


(** X11: whatever requests are served, from any registry: no activity is
    created or deleted, the description, schedule and [max_participants] of
    every activity stay as they were, and participants are only ever added
    at the end of a list, never removed or reordered. *)
Theorem run_requests_append_only reqs r name :
  (r !! name = None → run_requests reqs r !! name = None)
  ∧ (∀ a, r !! name = Some a →
       ∃ a', run_requests reqs r !! name = Some a' ∧ record_extends a a').
Proof.
  revert r. induction reqs as [|q reqs IH]; intros r; simpl.
  - split; [done|]. intros a Ha. exists a. split; [done|].
    apply record_extends_refl.
  - pose proof (serve_record q r name) as Hstep.
    destruct (IH (serve q r)) as [IHn IHs]. split.
    + intros Hn. rewrite Hn in Hstep. by apply IHn.
    + intros a Ha. rewrite Ha in Hstep. destruct Hstep as (b & Hb & Hab).
      destruct (IHs b Hb) as (c & Hc & Hbc). exists c. split; [done|].
      by eapply record_extends_trans.
Qed.

(** X12: the only request that changes the registry is a signup answered
    with 201: [GET /activities], [GET /activities/{name}] (found or 404) and
    every refused signup leave it as it was. *)
Theorem serve_changes_only_on_created req r :
  serve req r ≠ r →
  ∃ name payload, req = PostSignup name payload
                  ∧ signup_status r name (email payload) = HTTP_201_CREATED.
Proof.
  destruct req as [|name|name [mail]]; simpl.
  - done.
  - unfold get_activity, mbind, handler_bind, activities_get.
    by destruct (r !! name).
  - intros Hne. exists name, (mkSignupRequest mail). split; [done|]. simpl.
    revert Hne. change ((signup_for_activity name (mkSignupRequest mail) r).2)
      with (signup_registry r name mail).
    signup_inv r name mail; done.
Qed.

(** X13: in every registry the service can reach there are exactly the
    seed activities, each with its seed description, schedule and
    [max_participants], its seed participants still at the front of the
    list, and never more participants than the seed [max_participants]. *)
Theorem reachable_keeps_seed_shape r name :
  reachable r →
  (activities !! name = None → r !! name = None)
  ∧ (∀ a0, activities !! name = Some a0 →
       ∃ a, r !! name = Some a
            ∧ record_extends a0 a
            ∧ Z.of_nat (length (participants a)) ≤ max_participants a0).
Proof.
  intros Hreach. pose proof (reachable_record r name Hreach) as Hrec. split.
  - intros Hn. by rewrite Hn in Hrec.
  - intros a0 Ha0. rewrite Ha0 in Hrec. destruct Hrec as (a & Ha & Hext).
    exists a. split_and!; try done.
    destruct (reachable_invariant r Hreach name a Ha) as [Hlen _].
    destruct Hext as (_ & _ & <- & _). done.
Qed.

(** X15: signups for two different activities do not interfere: each gets
    the same outcome whether or not the other was served first, and the
    registry after both is the same in either order. *)
Theorem signup_different_activities_commute r n1 m1 n2 m2 :
  n1 ≠ n2 →
  (signup_for_activity n2 (mkSignupRequest m2) (signup_registry r n1 m1)).1
    = (signup_for_activity n2 (mkSignupRequest m2) r).1
  ∧ (signup_for_activity n1 (mkSignupRequest m1) (signup_registry r n2 m2)).1
    = (signup_for_activity n1 (mkSignupRequest m1) r).1
  ∧ signup_registry (signup_registry r n1 m1) n2 m2
    = signup_registry (signup_registry r n2 m2) n1 m1.
Proof.
  intros Hne.
  destruct (signup_local r (signup_registry r n1 m1) n2 m2) as [Ho2 Hr2].
  { by rewrite signup_registry_other. }
  destruct (signup_local r (signup_registry r n2 m2) n1 m1) as [Ho1 Hr1].
  { by rewrite signup_registry_other. }
  split_and!; [done..|].
  destruct Hr2 as [[E2 E2']|(x & E2 & E2')];
    destruct Hr1 as [[E1 E1']|(y & E1 & E1')];
    rewrite E2', E1'; rewrite ?E1, ?E2; try done.
  by apply insert_insert_ne.
Qed.

(** X16: [GET /activities] returns the registry itself and leaves it as it
    was, and the two read endpoints agree: the snapshot holds a record
    under a name exactly when [GET /activities/{name}] returns that record,
    and the names the snapshot lacks are exactly those answered with 404. *)
Theorem get_activities_agrees_with_get_activity r name :
  ∃ snapshot,
    get_activities r = (Returned snapshot, r)
    ∧ (∀ a, snapshot !! name = Some a
            ↔ (get_activity name r).1 = Returned a)
    ∧ (snapshot !! name = None
       ↔ get_activity_status r name = HTTP_404_NOT_FOUND).
Proof.
  exists r. unfold get_activities, get_activity_status, get_activity, mbind,
    handler_bind, activities_get; simpl.
  split_and!; [done| |].
  - intros a. destruct (r !! name) as [b|]; simpl; split;
      intros Heq; by simplify_eq.
  - destruct (r !! name) as [b|]; simpl; split; intros Heq; by simplify_eq.
Qed.

(** A request that passes the four tests returns its message and stores
    the lower-cased email at the end of the list. *)
Lemma signup_created r name mail a :
  validate_student (lower mail) = true →
  r !! name = Some a →
  lower mail ∉ participants a →
  Z.of_nat (length (participants a)) < max_participants a →
  signup_for_activity name (mkSignupRequest mail) r
  = (Returned ("Signed up " +:+ lower mail +:+ " for " +:+ name),
     <[ name := with_participant a (lower mail) ]> r).
Proof.
  intros Hv Hr Hnew Hroom.
  unfold signup_for_activity, mbind, handler_bind, activities_get; simpl.
  rewrite Hv; simpl. rewrite Hr; simpl.
  rewrite bool_decide_eq_false_2 by done.
  by destruct (Z.geb_spec (Z.of_nat (length (participants a)))
                 (max_participants a)); [lia|].
Qed.

(** * Properties that rest on what [str.lower] is

    Three facts about Python's [str.lower] are assumed.  Both
    [Str.ascii_lower] and [Str.latin1_lower] are proved to have them after
    the section, so the assumptions are consistent and admit functions that
    lower-case letters outside ASCII. *)

(** Lower-casing a lower-cased string changes nothing: the lower-case
    mapping of Unicode sends every character to characters that are their
    own lower-case form. *)
Hypothesis lower_idemp : ∀ s, lower (lower s) = lower s.

(** [str.lower] decides the institutional suffix as the lower-casing of the
    ASCII capitals does.  ASCII characters are lower-cased alike by both,
    and no character outside ASCII lower-cases into the text
    ["@mergington.edu"]: the only one that yields a letter of it is U+0130,
    whose lower-case form is [i] followed by U+0307, and the suffix has no
    U+0307. *)
Hypothesis lower_suffix : ∀ s,
  Str.endswith (lower s) "@mergington.edu"
  = Str.endswith (Str.ascii_lower s) "@mergington.edu".

(** On ASCII text [str.lower] lower-cases the 26 capitals and keeps the
    rest. *)
Hypothesis lower_on_ascii : ∀ s,
  Str.is_ascii s = true → lower s = Str.ascii_lower s.

(** The second lower-casing, inside [validate_student], changes nothing. *)
Lemma validate_student_lower mail :
  validate_student (lower mail) = validate_student mail.
Proof. unfold validate_student. by rewrite lower_idemp. Qed.

(** [validate_student] is the case-insensitive test for the institutional
    suffix. *)
Lemma validate_student_spec mail :
  validate_student mail = true ↔ Str.ends_with_nocase mail "@mergington.edu".
Proof.
  unfold validate_student. rewrite lower_suffix.
  by apply endswith_ascii_lower_nocase.
Qed.

Ltac signup_inv_raw r name mail :=
  signup_inv r name mail; rewrite ?validate_student_lower in *.

Lemma stored_form_lower mail :
  validate_student (lower mail) = true → stored_form (lower mail).
Proof. intros Hv. split; [apply lower_idemp|done]. Qed.

Lemma participants_stored_form_signup r name mail :
  participants_stored_form r →
  participants_stored_form (signup_registry r name mail).
Proof.
  intros Hinv. signup_inv r name mail; try done.
  apply map_Forall_insert_2; [|done]. simpl.
  apply Forall_app. split; [by eapply (Hinv name)|].
  apply Forall_singleton. by apply stored_form_lower.
Qed.

Lemma stored_form_ascii p : ascii_stored_form p → stored_form p.
Proof.
  intros (Hascii & Hlow & Hsuf). unfold stored_form, validate_student. split.
  - by rewrite (lower_on_ascii p Hascii).
  - by rewrite lower_suffix, Hlow.
Qed.

Lemma participants_stored_form_seed : participants_stored_form activities.
Proof.
  assert (map_Forall (λ _ a, Forall ascii_stored_form (participants a))
            activities) as Hseed.
  { apply (bool_decide_unpack _). vm_compute. exact I. }
  intros name a Ha. specialize (Hseed name a Ha). simpl in *.
  eapply Forall_impl; [exact Hseed|]. apply stored_form_ascii.
Qed.

Lemma reachable_stored_form r : reachable r → participants_stored_form r.
Proof.
  induction 1 as [|req r _ IH]; [apply participants_stored_form_seed|].
  destruct (serve_signup_registry req r) as [->|(name & mail & ->)]; [done|].
  by apply participants_stored_form_signup.
Qed.

(** In a reachable registry a stored participant is its own lower-cased
    form and has the institutional suffix. *)
Lemma reachable_participant r name a p :
  reachable r → r !! name = Some a → p ∈ participants a → stored_form p.
Proof.
  intros Hr Ha Hp. apply reachable_stored_form in Hr.
  specialize (Hr name a Ha). simpl in Hr.
  by eapply (proj1 (Forall_forall _ _)) in Hr.
Qed.

Lemma fmap_lower_stored (l : list string) :
  Forall stored_form l → lower <$> l = l.
Proof.
  induction 1 as [|p l [Hp _] _ IH]; [done|]. by rewrite fmap_cons, Hp, IH.
Qed.

(** C1 (amended): the checks of a signup are performed in the order
    InvalidInput for the email domain (400), then NotFound for an absent
    activity name (404), then Conflict (409), then Forbidden (403), and the
    request succeeds with 201 when none rejects.  In particular a request
    naming an absent activity fails with 404 when the email has the
    institutional suffix (case-insensitively) and with 400 when it has not. *)
Theorem signup_validation_order r name mail :
  signup_status r name mail = status_in_order code_order r name mail
  ∧ (r !! name = None →
     signup_status r name mail =
       if validate_student mail then HTTP_404_NOT_FOUND
       else HTTP_400_BAD_REQUEST).
Proof using lower_idemp.
  clear lower_suffix lower_on_ascii.
  split.
  - unfold signup_status, status_in_order, code_order, signup_for_activity,
      mbind, handler_bind, activities_get; simpl.
    rewrite validate_student_lower.
    destruct (validate_student mail); simpl; [|done].
    destruct (r !! name) as [a|] eqn:Hr; simpl.
    + case_bool_decide; simpl; [done|].
      by destruct (Z.of_nat (length (participants a)) >=? max_participants a).
    + done.
  - intros Hnone. signup_inv_raw r name mail;
      destruct (validate_student mail); signup_absurd.
Qed.

(** C2 (amended): for an existing activity, an email with the
    institutional suffix whose lower-cased form is not in the participants
    list, and a participant count strictly below [max_participants], signup
    answers 201 and the list becomes the old list followed by the
    lower-cased email: one element longer, the new email occurring exactly
    once. *)
Theorem signup_success_appends r name mail a :
  r !! name = Some a →
  validate_student mail = true →
  lower mail ∉ participants a →
  Z.of_nat (length (participants a)) < max_participants a →
  signup_status r name mail = HTTP_201_CREATED
  ∧ ∃ a', signup_registry r name mail !! name = Some a'
          ∧ participants a' = participants a ++ [lower mail]
          ∧ length (participants a') = S (length (participants a))
          ∧ length (filter (λ p, p = lower mail) (participants a')) = 1%nat.
Proof using lower_idemp.
  clear lower_suffix lower_on_ascii.
  intros Hr Hv Hnew Hroom. signup_inv_raw r name mail; signup_absurd.
  split; [done|]. exists (with_participant a (lower mail)).
  rewrite lookup_insert_eq. simpl. split_and!; try done.
  - rewrite length_app; simpl; lia.
  - rewrite filter_app, filter_cons_True, filter_nil by done.
    rewrite length_app; simpl.
    assert (filter (λ p, p = lower mail) (participants a) = []) as ->; [|done].
    by apply filter_eq_absent.
Qed.

(** C4: in every registry the service can reach, a signup whose email is
    already in the named activity's participants list (as sent, or in its
    lower-cased form) fails with 409 and leaves the registry as it was; and
    in any registry whatsoever a signup that raises raises one of 404, 400,
    409, 403 and leaves the registry as it was. *)
Theorem signup_failure_keeps_registry r name mail :
  (∀ a, reachable r → r !! name = Some a →
        mail ∈ participants a ∨ lower mail ∈ participants a →
        signup_status r name mail = HTTP_409_CONFLICT
        ∧ signup_registry r name mail = r)
  ∧ (∀ e, (signup_for_activity name (mkSignupRequest mail) r).1 = Raised e →
          signup_registry r name mail = r
          ∧ status_code e ∈ [HTTP_404_NOT_FOUND; HTTP_400_BAD_REQUEST;
                             HTTP_409_CONFLICT; HTTP_403_FORBIDDEN]).
Proof using lower_idemp lower_suffix lower_on_ascii.
  split.
  - intros a Hreach Hr [Hin|Hin].
    + destruct (reachable_participant r name a mail Hreach Hr Hin) as [Hl Hv].
      apply (signup_conflict r name mail a); [|done|by rewrite Hl].
      by rewrite validate_student_lower.
    + destruct (reachable_participant r name a _ Hreach Hr Hin) as [_ Hv].
      by apply (signup_conflict r name mail a).
  - intros e. signup_inv r name mail; intros He; simplify_eq; simpl;
      (split; [done|set_solver]).
Qed.

(** C5 (amended): for an existing activity whose participants list is
    exactly as long as [max_participants], an email with the institutional
    suffix whose lower-cased form is not in the list is refused with 403
    (and the registry is unchanged). *)
Theorem signup_full_forbidden r name mail a :
  r !! name = Some a →
  validate_student mail = true →
  lower mail ∉ participants a →
  Z.of_nat (length (participants a)) = max_participants a →
  signup_status r name mail = HTTP_403_FORBIDDEN
  ∧ signup_registry r name mail = r.
Proof using lower_idemp.
  clear lower_suffix lower_on_ascii.
  intros Hr Hv Hnew Hfull. signup_inv_raw r name mail; signup_absurd.
Qed.

(** C6: a signup whose email does not end with ["@mergington.edu"], the
    comparison ignoring letter case, fails with 400 whatever the registry
    holds: whether the activity exists, is full, or already lists the
    email.  The registry is unchanged. *)
Theorem signup_bad_domain r name mail :
  ¬ Str.ends_with_nocase mail "@mergington.edu" →
  signup_status r name mail = HTTP_400_BAD_REQUEST
  ∧ signup_registry r name mail = r.
Proof using lower_idemp lower_suffix.
  clear lower_on_ascii.
  intros Hdom.
  assert (validate_student mail = false) as Hv.
  { destruct (validate_student mail) eqn:Hv; [|done].
    by apply validate_student_spec in Hv. }
  signup_inv_raw r name mail; signup_absurd.
Qed.

(** C9: in the seed registry ["Chess Club"] has 2 participants and
    [max_participants] 12; signing up ["new@mergington.edu"] succeeds (201)
    and leaves a participants list of length 3 that contains
    ["new@mergington.edu"]. *)
Theorem chess_club_signup_example :
  (∃ a, activities !! "Chess Club" = Some a
        ∧ length (participants a) = 2%nat
        ∧ max_participants a = 12)
  ∧ signup_status activities "Chess Club" "new@mergington.edu"
    = HTTP_201_CREATED
  ∧ ∃ a', signup_registry activities "Chess Club" "new@mergington.edu"
            !! "Chess Club" = Some a'
          ∧ length (participants a') = 3%nat
          ∧ "new@mergington.edu" ∈ participants a'.
Proof using lower_suffix lower_on_ascii.
  clear lower_idemp.
  assert (lower "new@mergington.edu" = "new@mergington.edu") as Hlow
    by (by rewrite lower_on_ascii).
  assert (validate_student (lower "new@mergington.edu") = true) as Hv.
  { rewrite Hlow. unfold validate_student. by rewrite lower_suffix. }
  assert (lower "new@mergington.edu" ∉ participants chess_club) as Hnew.
  { rewrite Hlow. apply (bool_decide_unpack _). vm_compute. exact I. }
  pose proof (signup_created activities "Chess Club" "new@mergington.edu"
                chess_club Hv eq_refl Hnew) as Hrun.
  unfold signup_status, signup_registry. rewrite Hrun by (simpl; lia).
  rewrite Hlow. simpl. split_and!.
  - exists chess_club. by vm_compute.
  - done.
  - eexists. rewrite lookup_insert_eq. split; [done|]. simpl.
    split; [done|]. set_solver.
Qed.


(** X1: [validate_student] accepts exactly the strings that end with
    ["@mergington.edu"] when letter case is ignored; whatever precedes the
    suffix, even nothing, is accepted. *)
Theorem validate_student_suffix_nocase mail :
  (validate_student mail = true
   ↔ Str.ends_with_nocase mail "@mergington.edu")
  ∧ (∀ front tail, Str.ascii_lower tail = "@mergington.edu" →
       validate_student (front +:+ tail) = true).
Proof using lower_suffix.
  clear lower_idemp lower_on_ascii.
  split; [apply validate_student_spec|].
  intros front tail Ht. apply validate_student_spec. by exists front, tail.
Qed.


(** X4: a signup is answered with 409 exactly when the email passes the
    domain test and [check_already_signed_up], called with the lower-cased
    email, returns [True]. *)
Theorem signup_conflict_iff_check r name mail :
  signup_status r name mail = HTTP_409_CONFLICT
  ↔ validate_student mail = true
    ∧ (check_already_signed_up name (lower mail) r).1 = Returned true.
Proof using lower_idemp.
  clear lower_suffix lower_on_ascii.
  unfold check_already_signed_up, mbind, handler_bind, activities_get; simpl.
  signup_inv_raw r name mail; split; try done;
    try (intros [Hv Hc]; try congruence);
    repeat match goal with
    | H : r !! name = _ |- _ => rewrite H in *; clear H
    end; simpl in *; try done; try congruence.
  - split; [done|]. by rewrite bool_decide_eq_true_2.
  - rewrite bool_decide_eq_false_2 in Hc by done. congruence.
  - rewrite bool_decide_eq_false_2 in Hc by done. congruence.
Qed.

(** X5: a signup is answered with 201 exactly when the email passes the
    domain test, the activity exists, the lower-cased email is not in its
    list and the list is shorter than [max_participants]; the message
    returned then names the lower-cased email, not the email as sent. *)
Theorem signup_created_iff r name mail :
  (signup_status r name mail = HTTP_201_CREATED
   ↔ validate_student mail = true
     ∧ ∃ a, r !! name = Some a
            ∧ (lower mail ∉ participants a)
            ∧ Z.of_nat (length (participants a)) < max_participants a)
  ∧ (signup_status r name mail = HTTP_201_CREATED →
     (signup_for_activity name (mkSignupRequest mail) r).1
       = Returned ("Signed up " +:+ lower mail +:+ " for " +:+ name)).
Proof using lower_idemp.
  clear lower_suffix lower_on_ascii.
  split; [split|].
  - signup_inv_raw r name mail; intros Hs; try done.
    split; [done|]. by exists a.
  - intros (Hv & a & Hr & Hnew & Hroom).
    signup_inv_raw r name mail; signup_absurd.
  - signup_inv r name mail; intros Hs; done.
Qed.

(** X10: the capacity test is [>=]: an activity whose list is as long as or
    longer than [max_participants], for instance one whose
    [max_participants] is zero or negative, refuses with 403 every email
    that has the institutional suffix and whose lower-cased form is not in
    the list, and is left unchanged. *)
Theorem signup_at_or_over_capacity r name mail a :
  r !! name = Some a →
  validate_student mail = true →
  lower mail ∉ participants a →
  max_participants a ≤ Z.of_nat (length (participants a)) →
  signup_status r name mail = HTTP_403_FORBIDDEN
  ∧ signup_registry r name mail = r.
Proof using lower_idemp.
  clear lower_suffix lower_on_ascii.
  intros Hr Hv Hnew Hfull. signup_inv_raw r name mail; signup_absurd.
Qed.

(** X14: in every registry the service can reach, every stored participant
    is its own lower-cased form and ends with ["@mergington.edu"], and no
    two entries of one list have the same lower-cased form. *)
Theorem reachable_participants_normal r name a :
  reachable r →
  r !! name = Some a →
  Forall (λ p, lower p = p ∧ validate_student p = true) (participants a)
  ∧ NoDup (lower <$> participants a).
Proof using lower_idemp lower_suffix lower_on_ascii.
  intros Hreach Ha.
  assert (Forall stored_form (participants a)) as Hst.
  { apply Forall_forall. intros p Hp. by eapply reachable_participant. }
  split; [done|].
  rewrite fmap_lower_stored by done.
  by destruct (reachable_invariant r Hreach name a Ha).
Qed.

(** X17: once a signup has taken the last free place of an activity, a
    signup for that activity of any email that has the institutional
    suffix and whose lower-cased form is neither the one just stored nor in
    the list before is refused with 403 and changes nothing. *)
Theorem signup_after_last_place r name mail mail' a :
  r !! name = Some a →
  Z.of_nat (length (participants a)) + 1 = max_participants a →
  signup_status r name mail = HTTP_201_CREATED →
  validate_student mail' = true →
  lower mail' ≠ lower mail →
  lower mail' ∉ participants a →
  let r' := signup_registry r name mail in
  signup_status r' name mail' = HTTP_403_FORBIDDEN
  ∧ signup_registry r' name mail' = r'.
Proof using lower_idemp.
  clear lower_suffix lower_on_ascii.
  intros Ha Hlast Hs Hv' Hne Hnew r'. subst r'. revert Hs.
  signup_inv r name mail; intros Hs; try done. simplify_eq.
  set (r' := <[name:=with_participant a (lower mail)]> r).
  assert (r' !! name = Some (with_participant a (lower mail))) as Hr'
    by apply lookup_insert_eq.
  clearbody r'.
  signup_inv_raw r' name mail'; signup_absurd.
  - exfalso. simpl in *.
    match goal with
    | H : _ ∈ _ ++ _ |- _ =>
        apply elem_of_app in H as [?|?%list_elem_of_singleton]; done
    end.
  - exfalso.
    match goal with
    | H : Z.of_nat (length _) < _ |- _ =>
        simpl in H; rewrite ?length_app in H; simpl in H; lia
    end.
Qed.

End Service.

(** * Functions that meet what is assumed of [str.lower] *)

(** ** The lower-casing of the ASCII capitals *)

Lemma ascii_lower_suffix s :
  Str.endswith (Str.ascii_lower s) "@mergington.edu"
  = Str.endswith (Str.ascii_lower s) "@mergington.edu".
Proof. reflexivity. Qed.

Lemma ascii_lower_on_ascii s :
  Str.is_ascii s = true → Str.ascii_lower s = Str.ascii_lower s.
Proof. reflexivity. Qed.

(** ** The lower-casing of the ASCII and Latin-1 capitals *)

Lemma latin1_lower_cons_nolead c s :
  Str.is_latin1_lead c = false →
  Str.latin1_lower (String c s)
  = String (Str.ascii_lower_char c) (Str.latin1_lower s).
Proof. intros Hc. destruct s as [|d s]; simpl; [done|]. by rewrite Hc. Qed.

Lemma latin1_lower_cons_notail c d s :
  Str.is_latin1_capital_tail d = false →
  Str.latin1_lower (String c (String d s))
  = String (Str.ascii_lower_char c) (Str.latin1_lower (String d s)).
Proof.
  intros Hd. cbn [Str.latin1_lower]. rewrite Hd.
  by destruct (Str.is_latin1_lead c).
Qed.

Lemma latin1_lower_pair c d s :
  Str.is_latin1_lead c = true →
  Str.is_latin1_capital_tail d = true →
  Str.latin1_lower (String c (String d s))
  = String c (String (ascii_of_nat (nat_of_ascii d + 32)) (Str.latin1_lower s)).
Proof. intros Hc Hd. cbn [Str.latin1_lower]. by rewrite Hc, Hd. Qed.

(** Induction on the length, as [latin1_lower] consumes one or two
    characters at a step. *)
Lemma latin1_lower_strong_ind (P : string → Prop) :
  (∀ s, (∀ t, (String.length t < String.length s)%nat → P t) → P s) →
  ∀ s, P s.
Proof.
  intros Hstep s. remember (String.length s) as n eqn:Hn.
  revert s Hn. induction n as [n IH] using lt_wf_ind. intros s ->.
  apply Hstep. intros t Ht. by apply (IH (String.length t)).
Qed.

Lemma ascii_lower_char_lead c :
  Str.is_latin1_lead (Str.ascii_lower_char c) = Str.is_latin1_lead c.
Proof. by destruct c as [[] [] [] [] [] [] [] []]. Qed.

Lemma ascii_lower_char_tail c :
  Str.is_latin1_capital_tail (Str.ascii_lower_char c)
  = Str.is_latin1_capital_tail c.
Proof. by destruct c as [[] [] [] [] [] [] [] []]. Qed.

Lemma latin1_lead_not_tail c :
  Str.is_latin1_lead c = true → Str.is_latin1_capital_tail c = false.
Proof. by destruct c as [[] [] [] [] [] [] [] []]. Qed.

Lemma latin1_lead_fixed c :
  Str.is_latin1_lead c = true → Str.ascii_lower_char c = c.
Proof. by destruct c as [[] [] [] [] [] [] [] []]. Qed.

Lemma latin1_small_not_lead d :
  Str.is_latin1_capital_tail d = true →
  Str.is_latin1_lead (ascii_of_nat (nat_of_ascii d + 32)) = false
  ∧ Str.is_latin1_capital_tail (ascii_of_nat (nat_of_ascii d + 32)) = false
  ∧ Str.ascii_lower_char (ascii_of_nat (nat_of_ascii d + 32))
    = ascii_of_nat (nat_of_ascii d + 32)
  ∧ (128 <=? nat_of_ascii d)%nat = true
  ∧ (128 <=? nat_of_ascii (ascii_of_nat (nat_of_ascii d + 32)))%nat = true.
Proof. by destruct d as [[] [] [] [] [] [] [] []]. Qed.

(** The first character of a lower-cased string is a Latin-1 capital tail
    only when the first character of the string is. *)
Lemma latin1_lower_head d s :
  ∃ d' t, Str.latin1_lower (String d s) = String d' t
          ∧ Str.is_latin1_capital_tail d' = Str.is_latin1_capital_tail d.
Proof.
  destruct s as [|e s]; simpl.
  - eexists _, _. split; [done|]. apply ascii_lower_char_tail.
  - destruct (Str.is_latin1_lead d && Str.is_latin1_capital_tail e).
    + by eexists _, _.
    + eexists _, _. split; [done|]. apply ascii_lower_char_tail.
Qed.

Lemma latin1_lower_idemp s :
  Str.latin1_lower (Str.latin1_lower s) = Str.latin1_lower s.
Proof.
  induction s as [s IH] using latin1_lower_strong_ind.
  destruct s as [|c [|d s]]; [done| |].
  - simpl. by rewrite ascii_lower_char_idemp.
  - destruct (Str.is_latin1_lead c) eqn:Hc;
      [destruct (Str.is_latin1_capital_tail d) eqn:Hd|].
    + rewrite (latin1_lower_pair c d s Hc Hd).
      destruct (latin1_small_not_lead d Hd) as (Hl & Ht & Hfix & _).
      rewrite (latin1_lower_cons_notail _ _ _ Ht).
      rewrite (latin1_lower_cons_nolead _ _ Hl), Hfix.
      rewrite (latin1_lead_fixed c Hc). rewrite IH; [done|]. simpl. lia.
    + rewrite (latin1_lower_cons_notail c d s Hd).
      destruct (latin1_lower_head d s) as (d' & t & Heq & Ht).
      rewrite Heq. rewrite latin1_lower_cons_notail by congruence.
      rewrite <- Heq. rewrite ascii_lower_char_idemp.
      rewrite IH; [done|]. simpl. lia.
    + rewrite (latin1_lower_cons_nolead c _ Hc).
      rewrite latin1_lower_cons_nolead by (by rewrite ascii_lower_char_lead).
      rewrite ascii_lower_char_idemp. rewrite IH; [done|]. simpl. lia.
Qed.

Lemma latin1_lower_on_ascii s :
  Str.is_ascii s = true → Str.latin1_lower s = Str.ascii_lower s.
Proof.
  induction s as [|c s IH]; [done|].
  cbn [Str.is_ascii]. rewrite andb_true_iff. intros [Hc Hs].
  rewrite latin1_lower_cons_nolead.
  - simpl. by rewrite IH.
  - revert Hc. by destruct c as [[] [] [] [] [] [] [] []].
Qed.

Lemma same_ascii_latin1 s :
  Str.same_ascii (Str.latin1_lower s) (Str.ascii_lower s).
Proof.
  induction s as [s IH] using latin1_lower_strong_ind.
  destruct s as [|c [|d s]].
  - constructor.
  - simpl. constructor. constructor.
  - destruct (Str.is_latin1_lead c && Str.is_latin1_capital_tail d) eqn:Hcd.
    + apply andb_true_iff in Hcd as [Hc Hd].
      rewrite (latin1_lower_pair c d s Hc Hd). simpl.
      rewrite (latin1_lead_fixed c Hc). apply Str.same_ascii_eq.
      destruct (latin1_small_not_lead d Hd) as (_ & _ & _ & Hhi & Hhi').
      assert (Str.ascii_lower_char d = d) as ->.
      { revert Hd. by destruct d as [[] [] [] [] [] [] [] []]. }
      apply Str.same_ascii_high; [done..|]. apply IH. simpl. lia.
    + assert (Str.latin1_lower (String c (String d s))
              = String (Str.ascii_lower_char c)
                  (Str.latin1_lower (String d s))) as ->.
      { cbn [Str.latin1_lower]. by rewrite Hcd. }
      cbn [Str.ascii_lower]. apply Str.same_ascii_eq.
      apply (IH (String d s)). simpl. lia.
Qed.

Lemma same_ascii_length s t :
  Str.same_ascii s t → String.length s = String.length t.
Proof. induction 1; simpl; congruence. Qed.

Lemma same_ascii_drop n s t :
  Str.same_ascii s t → Str.same_ascii (Str.drop_chars n s) (Str.drop_chars n t).
Proof.
  intros H. revert n. induction H; intros [|n]; simpl;
    try (by constructor); auto.
Qed.

Lemma same_ascii_eq_l s t :
  Str.same_ascii s t → Str.is_ascii s = true → s = t.
Proof.
  induction 1 as [|c s t _ IH|c d s t Hc _ _ _]; simpl; [done| |].
  - rewrite andb_true_iff. intros [_ Hs]. by rewrite IH.
  - rewrite andb_true_iff. intros [Hlt _].
    apply Nat.leb_le in Hc. apply Nat.ltb_lt in Hlt. lia.
Qed.

Lemma same_ascii_eq_r s t :
  Str.same_ascii s t → Str.is_ascii t = true → s = t.
Proof.
  induction 1 as [|c s t _ IH|c d s t _ Hd _ _]; simpl; [done| |].
  - rewrite andb_true_iff. intros [_ Hs]. by rewrite IH.
  - rewrite andb_true_iff. intros [Hlt _].
    apply Nat.leb_le in Hd. apply Nat.ltb_lt in Hlt. lia.
Qed.

Lemma same_ascii_endswith s t suffix :
  Str.same_ascii s t →
  Str.is_ascii suffix = true →
  Str.endswith s suffix = Str.endswith t suffix.
Proof.
  intros Hst Hsuf. unfold Str.endswith.
  rewrite (same_ascii_length s t Hst). f_equal.
  pose proof (same_ascii_drop
                (String.length t - String.length suffix) s t Hst) as Hd.
  apply eq_true_iff_eq. rewrite !String.eqb_eq. split; intros Heq.
  - rewrite <- (same_ascii_eq_l _ _ Hd); [done|]. by rewrite Heq.
  - rewrite (same_ascii_eq_r _ _ Hd); [done|]. by rewrite Heq.
Qed.

Lemma latin1_lower_suffix s :
  Str.endswith (Str.latin1_lower s) "@mergington.edu"
  = Str.endswith (Str.ascii_lower s) "@mergington.edu".
Proof. apply same_ascii_endswith; [apply same_ascii_latin1|done]. Qed.

(** * Requests in ASCII *)

(** On an ASCII email the handler computes what it computes with the
    lower-casing of the ASCII capitals, whatever else [str.lower] does. *)
Lemma signup_ascii_request lower name mail r :
  (∀ s, Str.is_ascii s = true → lower s = Str.ascii_lower s) →
  Str.is_ascii mail = true →
  signup_for_activity lower name (mkSignupRequest mail) r
  = signup_for_activity Str.ascii_lower name (mkSignupRequest mail) r.
Proof.
  intros Hlow Hmail. unfold signup_for_activity, validate_student; simpl.
  rewrite (Hlow mail Hmail).
  by rewrite (Hlow _ (is_ascii_ascii_lower mail Hmail)).
Qed.

Lemma replay_ascii lower reqs r :
  (∀ s, Str.is_ascii s = true → lower s = Str.ascii_lower s) →
  Forall (λ q : string * string, Str.is_ascii q.2 = true) reqs →
  replay lower reqs r = replay Str.ascii_lower reqs r.
Proof.
  intros Hlow Hreqs. revert r.
  induction Hreqs as [|[name mail] reqs Hq _ IH]; intros r; [done|].
  unfold replay in *. simpl in *. rewrite IH. f_equal.
  unfold signup_registry. by rewrite (signup_ascii_request lower name mail r).
Qed.

(** The three requests below are ASCII, so the answers hold for every
    [lower] that lower-cases ASCII text as [str.lower] does. *)
Lemma absent_activity_bad_domain_any_lower lower :
  (∀ s, Str.is_ascii s = true → lower s = Str.ascii_lower s) →
  signup_status lower activities "Knitting Club" "student@example.com"
  = HTTP_400_BAD_REQUEST.
Proof.
  intros Hlow. unfold signup_status.
  rewrite (signup_ascii_request lower "Knitting Club"
             "student@example.com" activities Hlow eq_refl).
  vm_compute. reflexivity.
Qed.

Lemma other_case_refused_any_lower lower :
  (∀ s, Str.is_ascii s = true → lower s = Str.ascii_lower s) →
  signup_status lower activities "Chess Club" "MICHAEL@mergington.edu"
  = HTTP_409_CONFLICT.
Proof.
  intros Hlow. unfold signup_status.
  rewrite (signup_ascii_request lower "Chess Club"
             "MICHAEL@mergington.edu" activities Hlow eq_refl).
  vm_compute. reflexivity.
Qed.

Lemma full_other_case_conflict_any_lower lower :
  (∀ s, Str.is_ascii s = true → lower s = Str.ascii_lower s) →
  signup_status lower (chess_club_full lower) "Chess Club" "S01@mergington.edu"
  = HTTP_409_CONFLICT.
Proof.
  intros Hlow. unfold signup_status, chess_club_full.
  rewrite (replay_ascii lower ten_more_for_chess activities Hlow).
  - rewrite (signup_ascii_request lower "Chess Club"
               "S01@mergington.edu" _ Hlow eq_refl).
    vm_compute. reflexivity.
  - apply (bool_decide_unpack _). vm_compute. exact I.
Qed.

(** * Counterexamples to claims as stated *)

(** Closed facts are settled by evaluation. *)
Ltac evaluate :=
  lazymatch goal with
  | |- @eq (gmap _ _) _ _ => apply (bool_decide_unpack _); vm_compute; exact I
  | |- ¬ @eq (gmap _ _) _ _ => apply (bool_decide_unpack _); vm_compute; exact I
  | |- _ = _ => vm_compute; reflexivity
  | |- _ ≠ _ => vm_compute; intros ?; discriminate
  | |- _ => apply (bool_decide_unpack _); vm_compute; exact I
  end.

(** C1, as stated, fails: a request that names an absent activity and
    carries a non-institutional email is answered with 400, whereas the
    order of the specification (existence first) gives 404.  The email is
    ASCII: see [absent_activity_bad_domain_any_lower]. *)
Lemma signup_absent_activity_bad_domain :
  activities !! "Knitting Club" = None
  ∧ validate_student Str.ascii_lower "student@example.com" = false
  ∧ signup_status Str.ascii_lower activities "Knitting Club"
      "student@example.com" = HTTP_400_BAD_REQUEST
  ∧ status_in_order Str.ascii_lower spec_order activities "Knitting Club"
      "student@example.com" = HTTP_404_NOT_FOUND
  ∧ signup_status Str.ascii_lower activities "Knitting Club"
      "student@example.com" ≠ HTTP_404_NOT_FOUND.
Proof. split_and!; evaluate. Qed.

(** C2, as stated, fails when "not already a participant" is membership
    of the email as sent: ["MICHAEL@mergington.edu"] is not an element of
    the seed ["Chess Club"] list, has the institutional suffix, and the
    activity has room, yet the request is refused with 409 and nothing is
    appended, because the duplicate test compares the lower-cased email.
    The email is ASCII: see [other_case_refused_any_lower]. *)
Lemma signup_other_case_refused :
  activities !! "Chess Club" = Some chess_club
  ∧ validate_student Str.ascii_lower "MICHAEL@mergington.edu" = true
  ∧ ("MICHAEL@mergington.edu" ∉ participants chess_club)
  ∧ Z.of_nat (length (participants chess_club)) < max_participants chess_club
  ∧ signup_status Str.ascii_lower activities "Chess Club"
      "MICHAEL@mergington.edu" = HTTP_409_CONFLICT
  ∧ signup_status Str.ascii_lower activities "Chess Club"
      "MICHAEL@mergington.edu" ≠ HTTP_201_CREATED
  ∧ signup_registry Str.ascii_lower activities "Chess Club"
      "MICHAEL@mergington.edu" = activities.
Proof. split_and!; evaluate. Qed.

(** C5, as stated, fails when "non-duplicate" is membership of the email as
    sent: with ["Chess Club"] full, ["S01@mergington.edu"] is not an element
    of its list and has the institutional suffix, yet the answer is 409, not
    403, because its lower-cased form is stored and the duplicate test comes
    before the capacity test.  The emails are ASCII: see
    [full_other_case_conflict_any_lower]. *)
Lemma signup_full_other_case_conflict :
  reachable Str.ascii_lower (chess_club_full Str.ascii_lower)
  ∧ (∃ a, chess_club_full Str.ascii_lower !! "Chess Club" = Some a
          ∧ Z.of_nat (length (participants a)) = max_participants a
          ∧ "S01@mergington.edu" ∉ participants a)
  ∧ validate_student Str.ascii_lower "S01@mergington.edu" = true
  ∧ signup_status Str.ascii_lower (chess_club_full Str.ascii_lower)
      "Chess Club" "S01@mergington.edu" = HTTP_409_CONFLICT
  ∧ signup_status Str.ascii_lower (chess_club_full Str.ascii_lower)
      "Chess Club" "S01@mergington.edu" ≠ HTTP_403_FORBIDDEN.
Proof.
  split_and!; try evaluate.
  - apply chess_club_full_reachable.
  - exists (default chess_club
              (chess_club_full Str.ascii_lower !! "Chess Club")).
    split_and!; evaluate.
Qed.

(** * The theorems at concrete requests

    Each theorem is run once.  Where the request is ASCII, [lower] is the
    lower-casing of the ASCII capitals; where it is not, [lower] is the
    lower-casing that also knows the Latin-1 capitals, so that
    ["ÉMILE@mergington.edu"] lower-cases to ["émile@mergington.edu"]. *)

Lemma signup_validation_order_witness :
  activities !! "Knitting Club" = None
  ∧ signup_status Str.ascii_lower activities "Knitting Club"
      "student@mergington.edu" = HTTP_404_NOT_FOUND.
Proof.
  split; [reflexivity|].
  apply (proj2 (signup_validation_order Str.ascii_lower ascii_lower_idemp
                  activities "Knitting Club" "student@mergington.edu")).
  reflexivity.
Defined.

Lemma signup_success_appends_witness :
  signup_status Str.latin1_lower activities "Chess Club"
    "Émile@mergington.edu" = HTTP_201_CREATED
  ∧ ∃ a', signup_registry Str.latin1_lower activities "Chess Club"
            "Émile@mergington.edu" !! "Chess Club" = Some a'
          ∧ participants a' =
              participants chess_club
                ++ [Str.latin1_lower "Émile@mergington.edu"]
          ∧ length (participants a') = S (length (participants chess_club))
          ∧ length (filter (λ p, p = Str.latin1_lower "Émile@mergington.edu")
                      (participants a')) = 1%nat.
Proof.
  apply (signup_success_appends Str.latin1_lower latin1_lower_idemp
           activities "Chess Club" "Émile@mergington.edu" chess_club).
  - reflexivity.
  - evaluate.
  - evaluate.
  - evaluate.
Defined.

Lemma registry_invariant_seed_preserved_witness :
  registry_invariant activities
  ∧ registry_invariant
      (signup_registry Str.ascii_lower activities "Chess Club"
         "new@mergington.edu").
Proof.
  split.
  - apply (proj1 (registry_invariant_seed_preserved Str.ascii_lower)).
  - apply (proj2 (registry_invariant_seed_preserved Str.ascii_lower)).
    evaluate.
Defined.

Lemma signup_failure_keeps_registry_witness :
  (signup_status Str.ascii_lower activities "Chess Club"
     "daniel@mergington.edu" = HTTP_409_CONFLICT
   ∧ signup_registry Str.ascii_lower activities "Chess Club"
       "daniel@mergington.edu" = activities)
  ∧ signup_registry Str.ascii_lower activities "Knitting Club"
      "daniel@mergington.edu" = activities.
Proof.
  split.
  - apply (proj1 (signup_failure_keeps_registry Str.ascii_lower
                    ascii_lower_idemp ascii_lower_suffix ascii_lower_on_ascii
                    activities "Chess Club" "daniel@mergington.edu")
             chess_club).
    + apply reachable_seed.
    + reflexivity.
    + left. evaluate.
  - apply (proj2 (signup_failure_keeps_registry Str.ascii_lower
                    ascii_lower_idemp ascii_lower_suffix ascii_lower_on_ascii
                    activities "Knitting Club" "daniel@mergington.edu")
             (mkHTTPException HTTP_404_NOT_FOUND "Activity not found")).
    reflexivity.
Defined.

Lemma signup_full_forbidden_witness :
  let full := chess_club_full Str.ascii_lower in
  (length <$> (participants <$> full !! "Chess Club")) = Some 12%nat
  ∧ signup_status Str.ascii_lower full "Chess Club" "late@mergington.edu"
    = HTTP_403_FORBIDDEN
  ∧ signup_registry Str.ascii_lower full "Chess Club" "late@mergington.edu"
    = full.
Proof.
  split; [evaluate|].
  apply (signup_full_forbidden Str.ascii_lower ascii_lower_idemp
           (chess_club_full Str.ascii_lower) "Chess Club"
           "late@mergington.edu"
           (default chess_club
              (chess_club_full Str.ascii_lower !! "Chess Club"))).
  - evaluate.
  - evaluate.
  - evaluate.
  - evaluate.
Defined.

Lemma signup_bad_domain_witness :
  let full := chess_club_full Str.ascii_lower in
  signup_status Str.ascii_lower full "Chess Club" "late@mergington.edu.org"
    = HTTP_400_BAD_REQUEST
  ∧ signup_registry Str.ascii_lower full "Chess Club"
      "late@mergington.edu.org" = full.
Proof.
  apply (signup_bad_domain Str.ascii_lower ascii_lower_idemp
           ascii_lower_suffix (chess_club_full Str.ascii_lower) "Chess Club"
           "late@mergington.edu.org").
  intros H.
  apply (validate_student_spec Str.ascii_lower ascii_lower_suffix) in H.
  vm_compute in H. discriminate H.
Defined.

Lemma signup_frame_witness :
  signup_registry Str.latin1_lower activities "Chess Club"
    "Émile@mergington.edu" !! "Gym Class" = activities !! "Gym Class"
  ∧ signup_registry Str.latin1_lower activities "Knitting Club"
      "Émile@mergington.edu" !! "Knitting Club" = None
  ∧ ∃ a', signup_registry Str.latin1_lower activities "Chess Club"
            "Émile@mergington.edu" !! "Chess Club" = Some a'
          ∧ description a' = description chess_club
          ∧ schedule a' = schedule chess_club
          ∧ max_participants a' = max_participants chess_club
          ∧ (participants a' = participants chess_club
             ∨ participants a' =
                 participants chess_club
                   ++ [Str.latin1_lower "Émile@mergington.edu"]).
Proof.
  split_and!.
  - apply (proj1 (signup_frame Str.latin1_lower activities "Chess Club"
                    "Émile@mergington.edu")).
    discriminate.
  - apply (proj1 (proj2 (signup_frame Str.latin1_lower activities
                           "Knitting Club" "Émile@mergington.edu"))).
    reflexivity.
  - apply (proj2 (proj2 (signup_frame Str.latin1_lower activities
                           "Chess Club" "Émile@mergington.edu"))).
    reflexivity.
Defined.

Lemma get_activity_record_or_404_witness :
  ((get_activity "Chess Club" activities).1 = Returned chess_club
   ∧ get_activity_status activities "Chess Club" = HTTP_200_OK)
  ∧ get_activity_status activities "Knitting Club" = HTTP_404_NOT_FOUND.
Proof.
  split.
  - apply (proj1 (proj2 (get_activity_record_or_404 activities "Chess Club"))).
    reflexivity.
  - apply (proj2 (proj2 (get_activity_record_or_404 activities
                           "Knitting Club"))).
    reflexivity.
Defined.

Lemma chess_club_signup_example_witness :
  (∃ a, activities !! "Chess Club" = Some a
        ∧ length (participants a) = 2%nat
        ∧ max_participants a = 12)
  ∧ signup_status Str.latin1_lower activities "Chess Club"
      "new@mergington.edu" = HTTP_201_CREATED
  ∧ ∃ a', signup_registry Str.latin1_lower activities "Chess Club"
            "new@mergington.edu" !! "Chess Club" = Some a'
          ∧ length (participants a') = 3%nat
          ∧ "new@mergington.edu" ∈ participants a'.
Proof.
  apply (chess_club_signup_example Str.latin1_lower latin1_lower_suffix
           latin1_lower_on_ascii).
Defined.


Lemma validate_student_suffix_nocase_witness :
  validate_student Str.latin1_lower ("É" +:+ "@MERGINGTON.edu") = true.
Proof.
  apply (proj2 (validate_student_suffix_nocase Str.latin1_lower
                  latin1_lower_suffix "") "É" "@MERGINGTON.edu").
  reflexivity.
Defined.


Lemma check_already_signed_up_result_witness :
  check_already_signed_up "Knitting Club" "michael@mergington.edu" activities
    = (Returned false, activities)
  ∧ check_already_signed_up "Chess Club" "MICHAEL@mergington.edu" activities
    = (Returned false, activities)
  ∧ check_already_signed_up "Chess Club" "michael@mergington.edu" activities
    = (Returned true, activities).
Proof.
  split_and!.
  - destruct (check_already_signed_up_result activities "Knitting Club"
                "michael@mergington.edu") as (b & -> & _ & Habs).
    destruct (Habs eq_refl) as [-> _]. reflexivity.
  - reflexivity.
  - reflexivity.
Defined.

Lemma signup_conflict_iff_check_witness :
  let r := signup_registry Str.latin1_lower activities "Chess Club"
             "émile@mergington.edu" in
  signup_status Str.latin1_lower r "Chess Club" "ÉMILE@mergington.edu"
  = HTTP_409_CONFLICT.
Proof.
  apply (proj2 (signup_conflict_iff_check Str.latin1_lower latin1_lower_idemp
                  (signup_registry Str.latin1_lower activities "Chess Club"
                     "émile@mergington.edu")
                  "Chess Club" "ÉMILE@mergington.edu")).
  split; evaluate.
Defined.

Lemma signup_created_iff_witness :
  (signup_for_activity Str.latin1_lower "Chess Club"
     (mkSignupRequest "ÉMILE@mergington.edu") activities).1
  = Returned ("Signed up " +:+ Str.latin1_lower "ÉMILE@mergington.edu"
              +:+ " for " +:+ "Chess Club").
Proof.
  apply (proj2 (signup_created_iff Str.latin1_lower latin1_lower_idemp
                  activities "Chess Club" "ÉMILE@mergington.edu")).
  evaluate.
Defined.

Lemma signup_changes_iff_created_witness :
  signup_registry Str.ascii_lower activities "Chess Club"
    "new@mergington.edu" ≠ activities.
Proof.
  apply (proj2 (signup_changes_iff_created Str.ascii_lower activities
                  "Chess Club" "new@mergington.edu")).
  reflexivity.
Defined.

Lemma signup_then_read_witness :
  let r' := signup_registry Str.latin1_lower activities "Chess Club"
              "ÉMILE@mergington.edu" in
  (check_already_signed_up "Chess Club"
     (Str.latin1_lower "ÉMILE@mergington.edu") activities).1 = Returned false
  ∧ (check_already_signed_up "Chess Club"
       (Str.latin1_lower "ÉMILE@mergington.edu") r').1 = Returned true
  ∧ ∃ a', (get_activity "Chess Club" r').1 = Returned a'
          ∧ last (participants a')
            = Some (Str.latin1_lower "ÉMILE@mergington.edu").
Proof.
  apply (signup_then_read Str.latin1_lower activities "Chess Club"
           "ÉMILE@mergington.edu").
  evaluate.
Defined.


Lemma signup_at_or_over_capacity_witness :
  let r := <[ "Closed" := mkActivity "d" "s" 0 [] ]> activities in
  signup_status Str.ascii_lower r "Closed" "new@mergington.edu"
    = HTTP_403_FORBIDDEN
  ∧ signup_registry Str.ascii_lower r "Closed" "new@mergington.edu" = r.
Proof.
  apply (signup_at_or_over_capacity Str.ascii_lower ascii_lower_idemp
           (<[ "Closed" := mkActivity "d" "s" 0 [] ]> activities)
           "Closed" "new@mergington.edu" (mkActivity "d" "s" 0 [])).
  - reflexivity.
  - reflexivity.
  - evaluate.
  - simpl. lia.
Defined.

Lemma run_requests_append_only_witness :
  ∃ a', run_requests Str.latin1_lower
          [PostSignup "Chess Club" (mkSignupRequest "émile@mergington.edu");
           GetActivity "Knitting Club";
           PostSignup "Chess Club" (mkSignupRequest "ÉMILE@mergington.edu");
           GetActivities]
          activities !! "Chess Club" = Some a'
        ∧ record_extends chess_club a'.
Proof.
  apply (proj2 (run_requests_append_only Str.latin1_lower
                  [PostSignup "Chess Club"
                     (mkSignupRequest "émile@mergington.edu");
                   GetActivity "Knitting Club";
                   PostSignup "Chess Club"
                     (mkSignupRequest "ÉMILE@mergington.edu");
                   GetActivities]
                  activities "Chess Club")).
  reflexivity.
Defined.

Lemma serve_changes_only_on_created_witness :
  ∃ name payload,
    PostSignup "Chess Club" (mkSignupRequest "new@mergington.edu")
      = PostSignup name payload
    ∧ signup_status Str.ascii_lower activities name (email payload)
      = HTTP_201_CREATED.
Proof.
  apply (serve_changes_only_on_created Str.ascii_lower
           (PostSignup "Chess Club" (mkSignupRequest "new@mergington.edu"))
           activities).
  evaluate.
Defined.

Lemma reachable_keeps_seed_shape_witness :
  ∃ a, chess_club_full Str.ascii_lower !! "Chess Club" = Some a
       ∧ record_extends chess_club a
       ∧ Z.of_nat (length (participants a)) ≤ max_participants chess_club.
Proof.
  apply (proj2 (reachable_keeps_seed_shape Str.ascii_lower
                  (chess_club_full Str.ascii_lower) "Chess Club"
                  (chess_club_full_reachable Str.ascii_lower))).
  reflexivity.
Defined.

Lemma reachable_participants_normal_witness :
  let a := with_participant chess_club "émile@mergington.edu" in
  Forall (λ p, Str.latin1_lower p = p
               ∧ validate_student Str.latin1_lower p = true) (participants a)
  ∧ NoDup (Str.latin1_lower <$> participants a).
Proof.
  apply (reachable_participants_normal Str.latin1_lower latin1_lower_idemp
           latin1_lower_suffix latin1_lower_on_ascii
           (signup_registry Str.latin1_lower activities "Chess Club"
              "Émile@mergington.edu")
           "Chess Club"
           (with_participant chess_club "émile@mergington.edu")).
  - apply (reachable_serve Str.latin1_lower
             (PostSignup "Chess Club" (mkSignupRequest "Émile@mergington.edu"))).
    apply reachable_seed.
  - evaluate.
Defined.

Lemma signup_different_activities_commute_witness :
  signup_registry Str.ascii_lower
    (signup_registry Str.ascii_lower activities "Chess Club" "a@mergington.edu")
    "Gym Class" "b@mergington.edu"
  = signup_registry Str.ascii_lower
      (signup_registry Str.ascii_lower activities "Gym Class" "b@mergington.edu")
      "Chess Club" "a@mergington.edu".
Proof.
  apply (signup_different_activities_commute Str.ascii_lower activities
           "Chess Club" "a@mergington.edu" "Gym Class" "b@mergington.edu").
  discriminate.
Defined.

Lemma signup_after_last_place_witness :
  let r := <[ "Duo" := mkActivity "d" "s" 2 ["a@mergington.edu"] ]> activities in
  let r' := signup_registry Str.ascii_lower r "Duo" "b@mergington.edu" in
  signup_status Str.ascii_lower r' "Duo" "c@mergington.edu"
    = HTTP_403_FORBIDDEN
  ∧ signup_registry Str.ascii_lower r' "Duo" "c@mergington.edu" = r'.
Proof.
  apply (signup_after_last_place Str.ascii_lower ascii_lower_idemp
           (<[ "Duo" := mkActivity "d" "s" 2 ["a@mergington.edu"] ]> activities)
           "Duo" "b@mergington.edu" "c@mergington.edu"
           (mkActivity "d" "s" 2 ["a@mergington.edu"])).
  - reflexivity.
  - reflexivity.
  - reflexivity.
  - reflexivity.
  - discriminate.
  - evaluate.
Defined.
